(** * The chat routes of the support dashboard backend

    A shallow embedding of [app/routes/chat.py]: the identity resolver
    [get_current_user] and the nine route handlers of the [/chats] router.

    The handlers are thin Python functions that parse a credential, apply a
    guard and hand over to a controller.  They are embedded as programs of a
    small free monad whose nodes are the two kinds of calls that leave the
    module: the token decoder ([app.utils.jwt]) and the controllers
    ([app.controller.chat_controller]).  Running a program against a decoder
    and a controller yields the result, the final database and the list of
    calls that were made, in order. *)

From stdpp Require Import gmap strings list sorting.
From Stdlib Require Import ZArith SpecFloat Ascii.

Set Warnings "-register-all".
Set Default Proof Using "Type".

(** ** Python values *)

(** The values a decoded JSON document can hold.  Integers are unbounded,
    as in Python; a float is an IEEE 754 binary value. *)
Inductive pyval : Type :=
| PyNone
| PyBool (b : bool)
| PyInt (n : Z)
| PyFloat (f : spec_float)
| PyStr (s : string)
| PyList (l : list pyval)
| PyDict (d : gmap string pyval).

Abbreviation dict := (gmap string pyval).

(** The exceptions that can leave a handler. *)
Inductive exn : Type :=
| HTTPException (status_code : Z) (detail : string)
| NameError (name : string)
| TypeError
| ValueError
| OverflowError
| IndexError
| AttributeError.

Inductive result (A : Type) : Type :=
| Returned (a : A)
| Raised (e : exn).
Arguments Returned {A} a.
Arguments Raised {A} e.

(** [bool(v)]: [None], [False], zero, and the empty string, list and dict
    are falsy; everything else (a NaN included) is truthy. *)
Definition truthy (v : pyval) : bool :=
  match v with
  | PyNone => false
  | PyBool b => b
  | PyInt n => negb (n =? 0)%Z
  | PyFloat (S754_zero _) => false
  | PyFloat _ => true
  | PyStr s => negb (String.eqb s "")
  | PyList [] => false
  | PyList (_ :: _) => true
  | PyDict d => negb (bool_decide (d = ∅))
  end.

(** [d.get(key)]: the value bound to [key], [None] when there is none. *)
Definition get (d : dict) (key : string) : pyval :=
  default PyNone (d !! key).

(** [v == s] for a string literal [s]: only an equal string is equal. *)
Definition eq_str (v : pyval) (s : string) : bool :=
  match v with
  | PyStr t => String.eqb t s
  | _ => false
  end.

(** [s.startswith(p)]. *)
Definition startswith (s p : string) : bool := String.prefix p s.

(** [s.split(sep)] for a one-character separator: every occurrence of the
    separator ends a piece, so that neighbouring separators give empty
    pieces and the result is never empty. *)
Fixpoint split (sep : Ascii.ascii) (s : string) : list string :=
  match s with
  | EmptyString => [EmptyString]
  | String c s' =>
      if Ascii.eqb c sep then EmptyString :: split sep s'
      else match split sep s' with
           | [] => [String c EmptyString]
           | w :: ws => String c w :: ws
           end
  end.

(** [l[i]] for [0 <= i]. *)
Definition item {A : Type} (l : list A) (i : nat) : result A :=
  match l !! i with
  | Some x => Returned x
  | None => Raised IndexError
  end.

(** [int(f)] for a float: truncation towards zero. *)
Definition int_of_float (f : spec_float) : result Z :=
  match f with
  | S754_zero _ => Returned 0%Z
  | S754_infinity _ => Raised OverflowError
  | S754_nan => Raised ValueError
  | S754_finite s m e =>
      let mag := Z.shiftl (Z.pos m) e in
      Returned (if s then (- mag)%Z else mag)
  end.

Section Builtins.

(** [int(s)] for a string is Python's own parser of integer literals
    (surrounding white space, sign, digit groups): [None] stands for the
    [ValueError] of a string it rejects. *)
Variable int_of_str : string → option Z.

(** [int(v)]. *)
Definition int (v : pyval) : result Z :=
  match v with
  | PyNone => Raised TypeError
  | PyBool b => Returned (if b then 1 else 0)%Z
  | PyInt n => Returned n
  | PyFloat f => int_of_float f
  | PyStr s =>
      match int_of_str s with
      | Some n => Returned n
      | None => Raised ValueError
      end
  | PyList _ => Raised TypeError
  | PyDict _ => Raised TypeError
  end.

End Builtins.

(** ** The module's name space *)

(** The names bound at module level of [app/routes/chat.py]: its imports
    (lines 1 to 24), [router], and the functions it defines. *)
Definition module_globals : list string :=
  [ "APIRouter"; "Depends"; "Header"; "HTTPException";
    "Session";
    "List"; "Optional";
    "ChatCreate"; "ChatUpdate"; "ChatResponse"; "ChatListResponse";
    "MessageCreate"; "MessageResponse";
    "get_all_chats"; "get_chat_detail"; "create_chat"; "update_chat";
    "send_message"; "mark_messages_as_read"; "delete_chat";
    "update_message"; "delete_message";
    "get_db";
    "decode_access_token";
    "router";
    "get_current_user"; "list_chats"; "get_chat"; "create_new_chat";
    "update_chat_data"; "send_chat_message"; "mark_chat_as_read";
    "delete_chat_endpoint"; "update_message_endpoint";
    "delete_message_endpoint" ].

(** The constants of [fastapi.status] the module refers to. *)
Definition status_constants : list (string * Z) :=
  [ ("HTTP_400_BAD_REQUEST", 400%Z); ("HTTP_403_FORBIDDEN", 403%Z) ].

(** ** Data *)

(** The identity [get_current_user] returns, the dict
    [{"id": ..., "role": ...}]: it has two keys, so it is always truthy. *)
Record user : Type := { id : Z; role : pyval }.

(** Modelled from the spec: [app.schemas.chat_schema] is missing; the
    fields of [MessageCreate] are those of the [send_message] input,
    {chat_id, sender, text, agent_id?}. *)
Record MessageCreate : Type :=
  { chat_id : Z; sender : string; text : string; agent_id : option Z }.

(** [data.agent_id = v]: assignment to one field. *)
Definition set_agent_id (data : MessageCreate) (v : option Z) : MessageCreate :=
  {| chat_id := chat_id data; sender := sender data; text := text data;
     agent_id := v |}.

(** ** Programs *)

Section Routes.

(** The request schemas [ChatCreate] and [ChatUpdate] and what a
    controller returns are declared outside this module; the handlers only
    pass them on. *)
Context {ChatCreate ChatUpdate response : Type}.

Variable int_of_str : string → option Z.

(** The calls into [app.controller.chat_controller], with the arguments
    the handlers give them.  Every controller also receives the database
    session, which is the state a program runs in. *)
Inductive controller_call : Type :=
| get_all_chats (user_id : option Z) (user_role : pyval)
| get_chat_detail (chat_id : Z)
| create_chat (data : ChatCreate)
| update_chat (chat_id : Z) (data : ChatUpdate)
| send_message (data : MessageCreate)
| mark_messages_as_read (chat_id : Z)
| delete_chat (chat_id : Z)
| update_message (message_id : Z) (new_text : pyval)
| delete_message (message_id : Z).

(** A handler either returns, raises, asks [decode_access_token] for the
    payload of a token, or calls a controller. *)
Inductive prog (A : Type) : Type :=
| Ret (a : A)
| Raise (e : exn)
| Decode (token : string) (k : option dict → prog A)
| Call (c : controller_call) (k : response → prog A).
Arguments Ret {A} a.
Arguments Raise {A} e.
Arguments Decode {A} token k.
Arguments Call {A} c k.

Fixpoint bind {A B : Type} (p : prog A) (f : A → prog B) : prog B :=
  match p with
  | Ret a => f a
  | Raise e => Raise e
  | Decode token k => Decode token (λ payload, bind (k payload) f)
  | Call c k => Call c (λ r, bind (k r) f)
  end.

#[global] Instance prog_ret : MRet prog := λ A, Ret.
#[global] Instance prog_bind : MBind prog := λ A B f p, bind p f.

Definition lift {A : Type} (r : result A) : prog A :=
  match r with
  | Returned a => Ret a
  | Raised e => Raise e
  end.

(** Reading a global name: a name the module never binds (and that is no
    builtin) raises [NameError]. *)
Definition load_global (name : string) : prog unit :=
  if bool_decide (name ∈ module_globals) then Ret () else Raise (NameError name).

(** [status.attr]: [status] is first looked up as a global of the
    module. *)
Definition status_attr (attr : string) : prog Z :=
  _ ← load_global "status";
  match list_to_map (M := gmap string Z) status_constants !! attr with
  | Some code => Ret code
  | None => Raise AttributeError
  end.

(** [raise HTTPException(status_code=status.attr, detail=detail)]: the
    arguments are evaluated before the exception is built. *)
Definition raise_http {A : Type} (attr detail : string) : prog A :=
  _ ← load_global "HTTPException";
  code ← status_attr attr;
  Raise (HTTPException code detail).

(** ** [get_current_user] (lines 32 to 46) *)

(** Lines 40 to 46: the identity a decoded payload stands for. *)
Definition user_of_payload (payload : option dict) : prog (option user) :=
  match payload with
  | None => Ret None
  | Some payload =>
      if negb (truthy (PyDict payload)) then Ret None
      else
        sub ← lift (int int_of_str (get payload "sub"));
        Ret (Some {| id := sub; role := get payload "role" |})
  end.

Definition get_current_user (authorization : option string)
  : prog (option user) :=
  match authorization with
  | None => Ret None
  | Some authorization =>
      if negb (truthy (PyStr authorization))
         || negb (startswith authorization "Bearer ")
      then Ret None
      else
        token ← lift (item (split " "%char authorization) 1);
        payload ← Decode token Ret;
        user_of_payload payload
  end.

(** ** The route handlers *)

(** Lines 49 to 59. *)
Definition list_chats (authorization : option string) : prog response :=
  user ← get_current_user authorization;
  let user_id := match user with Some u => Some (id u) | None => None end in
  let user_role := match user with Some u => role u | None => PyNone end in
  Call (get_all_chats user_id user_role) Ret.

(** Lines 62 to 65. *)
Definition get_chat (chat_id : Z) : prog response :=
  Call (get_chat_detail chat_id) Ret.

(** Lines 68 to 71. *)
Definition create_new_chat (data : ChatCreate) : prog response :=
  Call (create_chat data) Ret.

(** Lines 74 to 77. *)
Definition update_chat_data (chat_id : Z) (data : ChatUpdate) : prog response :=
  Call (update_chat chat_id data) Ret.

(** Lines 80 to 93. *)
Definition send_chat_message (data : MessageCreate)
    (authorization : option string) : prog response :=
  user ← get_current_user authorization;
  let data :=
    if String.eqb (sender data) "agent" then
      match user with
      | Some u => set_agent_id data (Some (id u))
      | None => data
      end
    else data in
  Call (send_message data) Ret.

(** Lines 96 to 99. *)
Definition mark_chat_as_read (chat_id : Z) : prog response :=
  Call (mark_messages_as_read chat_id) Ret.

(** Lines 102 to 118. *)
Definition delete_chat_endpoint (chat_id : Z)
    (authorization : option string) : prog response :=
  user ← get_current_user authorization;
  if match user with
     | None => true
     | Some u => negb (eq_str (role u) "admin")
     end
  then raise_http "HTTP_403_FORBIDDEN" "Only admins can delete chats"
  else Call (delete_chat chat_id) Ret.

(** Lines 121 to 135. *)
Definition update_message_endpoint (message_id : Z) (data : dict)
  : prog response :=
  let new_text := get data "text" in
  if negb (truthy new_text)
  then raise_http "HTTP_400_BAD_REQUEST" "Text is required"
  else Call (update_message message_id new_text) Ret.

(** Lines 138 to 144. *)
Definition delete_message_endpoint (message_id : Z) : prog response :=
  Call (delete_message message_id) Ret.

(** ** The router *)

(** A request to one of the nine routes, with its path parameter and
    body. *)
Inductive request : Type :=
| GET_chats
| GET_chat (chat_id : Z)
| POST_chat (data : ChatCreate)
| PATCH_chat (chat_id : Z) (data : ChatUpdate)
| POST_message (data : MessageCreate)
| POST_read (chat_id : Z)
| DELETE_chat (chat_id : Z)
| PATCH_message (message_id : Z) (data : dict)
| DELETE_message (message_id : Z).

(** Each handler receives the [Authorization] header only when its
    signature declares the parameter. *)
Definition dispatch (req : request) (authorization : option string)
  : prog response :=
  match req with
  | GET_chats => list_chats authorization
  | GET_chat chat_id => get_chat chat_id
  | POST_chat data => create_new_chat data
  | PATCH_chat chat_id data => update_chat_data chat_id data
  | POST_message data => send_chat_message data authorization
  | POST_read chat_id => mark_chat_as_read chat_id
  | DELETE_chat chat_id => delete_chat_endpoint chat_id authorization
  | PATCH_message message_id data => update_message_endpoint message_id data
  | DELETE_message message_id => delete_message_endpoint message_id
  end.

(** ** Running a program *)

Inductive event : Type :=
| decoded (token : string)
| called (c : controller_call).

Context {DB : Type}.

(** What a run leaves behind: the result, the database, and the calls
    made, first to last. *)
Record outcome (A : Type) : Type :=
  { res : result A; final : DB; events : list event }.
Arguments res {A} o.
Arguments final {A} o.
Arguments events {A} o.

Definition after {A : Type} (ev : event) (o : outcome A) : outcome A :=
  {| res := res o; final := final o; events := ev :: events o |}.

(** Sequencing of outcomes: the second computation starts in the database
    the first one left, unless the first one raised. *)
Definition and_then {A B : Type} (o : outcome A) (f : A → DB → outcome B)
  : outcome B :=
  match res o with
  | Returned a =>
      let o' := f a (final o) in
      {| res := res o'; final := final o'; events := events o ++ events o' |}
  | Raised e => {| res := Raised e; final := final o; events := events o |}
  end.

(** The token decoder answers with a payload or with [None]; a
    controller returns or raises, and may change the database. *)
Variable decode_access_token : string → option dict.
Variable controller : controller_call → DB → result response * DB.

Fixpoint run {A : Type} (p : prog A) (db : DB) : outcome A :=
  match p with
  | Ret a => {| res := Returned a; final := db; events := [] |}
  | Raise e => {| res := Raised e; final := db; events := [] |}
  | Decode token k =>
      after (decoded token) (run (k (decode_access_token token)) db)
  | Call c k =>
      match controller c db with
      | (Returned r, db') => after (called c) (run (k r) db')
      | (Raised e, db') =>
          {| res := Raised e; final := db'; events := [called c] |}
      end
  end.

End Routes.

Arguments Ret {ChatCreate ChatUpdate response A} a.
Arguments Raise {ChatCreate ChatUpdate response A} e.
Arguments Decode {ChatCreate ChatUpdate response A} token k.
Arguments Call {ChatCreate ChatUpdate response A} c k.
Arguments res {ChatCreate ChatUpdate DB A} o.
Arguments final {ChatCreate ChatUpdate DB A} o.
Arguments events {ChatCreate ChatUpdate DB A} o.
Arguments Build_outcome {ChatCreate ChatUpdate DB A} res final events.

(** Whether a run reached the store. *)
Definition reaches_store {ChatCreate ChatUpdate : Type}
    (evs : list (@event ChatCreate ChatUpdate)) : bool :=
  existsb (λ ev, match ev with called _ => true | decoded _ => false end) evs.

(** ** The failure taxonomy *)

(** Modelled from the spec: the four failures of the error taxonomy, under
    the status codes HTTP reserves for them (the handlers signal a failure
    by raising [HTTPException] with a status code). *)
Inductive failure : Type := NotFound | InvalidArgument | Forbidden | Unauthenticated.

Definition failure_status (f : failure) : Z :=
  match f with
  | NotFound => 404
  | InvalidArgument => 400
  | Forbidden => 403
  | Unauthenticated => 401
  end%Z.

Definition fails_with {A : Type} (r : result A) (f : failure) : Prop :=
  ∃ detail, r = Raised (HTTPException (failure_status f) detail).

(** ** The bearer token, in the words of the specification *)

(** What follows the first space of a string, if it has one. *)
Fixpoint after_first_space (s : string) : option string :=
  match s with
  | EmptyString => None
  | String c s' => if Ascii.eqb c " " then Some s' else after_first_space s'
  end.

(** What precedes the first space of a string (all of it, if it has
    none). *)
Fixpoint before_first_space (s : string) : string :=
  match s with
  | EmptyString => EmptyString
  | String c s' =>
      if Ascii.eqb c " " then EmptyString else String c (before_first_space s')
  end.

(** The text between the first and the second space of a header; it runs to
    the end of the header when there is no second space. *)
Definition between_spaces (header : string) : option string :=
  before_first_space <$> after_first_space header.

(** ** The chat store *)

(** Modelled from the spec: the store lives in
    [app.controller.chat_controller] and the models behind it, which are
    missing; the entities are those of the data model (chats that own their
    messages), and [get_all_chats] is the one operation modelled. *)
Module ChatStore.

Inductive Mode : Type := mode_bot | mode_agent | mode_closed.
Inductive Sender : Type := sender_customer | sender_agent | sender_bot.

Record Message : Type :=
  { msg_id : Z; msg_chat_id : Z; msg_sender : Sender;
    msg_agent_id : option Z; msg_text : string; msg_created_at : Z;
    msg_read : bool }.

(** A chat owns the sequence of its messages. *)
Record Chat : Type :=
  { id : Z; customer_id : Z; assigned_agent_id : option Z; mode : Mode;
    created_at : Z; updated_at : Z; messages : list Message }.

(** A summary carries a preview of the last message and the number of
    unread messages. *)
Record ChatSummary : Type :=
  { summary_id : Z; summary_customer_id : Z;
    last_message : option string; unread_count : nat }.

Definition summary (c : Chat) : ChatSummary :=
  {| summary_id := id c; summary_customer_id := customer_id c;
     last_message := last (msg_text <$> messages c);
     unread_count := length (filter (λ m, msg_read m = false) (messages c)) |}.

(** Modelled from the spec: the visibility rule of [list_chats], no filter for an absent actor,
    none for an agent or an admin; a customer sees the chats that belong
    to them.  An unknown role is not privileged and is filtered like a
    customer. *)
Definition visible (user_id : option Z) (user_role : pyval) (c : Chat) : bool :=
  match user_id with
  | None => true
  | Some uid =>
      if eq_str user_role "agent" || eq_str user_role "admin" then true
      else bool_decide (customer_id c = uid)
  end.

(** Most recent activity first. *)
Definition more_recent (a b : Chat) : Prop := (updated_at b ≤ updated_at a)%Z.

#[global] Instance more_recent_dec a b : Decision (more_recent a b).
Proof. unfold more_recent. apply _. Defined.

(** Modelled from the spec: [get_all_chats] of
    [app.controller.chat_controller] is missing; it lists the summaries
    of the chats visible to the actor, ordered by most recent activity. *)
Definition get_all_chats (db : list Chat) (user_id : option Z)
    (user_role : pyval) : list ChatSummary :=
  summary <$> merge_sort more_recent (filter (λ c, visible user_id user_role c) db).

End ChatStore.

(** A controller whose [get_all_chats] is the store's, over a database of
    chats; [chat_list] is the serialisation of the summaries into the
    response, and every other call goes to [base]. *)
Definition store_controller {ChatCreate ChatUpdate response : Type}
    (chat_list : list ChatStore.ChatSummary → response)
    (base : @controller_call ChatCreate ChatUpdate → list ChatStore.Chat →
            result response * list ChatStore.Chat)
    (c : @controller_call ChatCreate ChatUpdate) (db : list ChatStore.Chat)
  : result response * list ChatStore.Chat :=
  match c with
  | get_all_chats user_id user_role =>
      (Returned (chat_list (ChatStore.get_all_chats db user_id user_role)), db)
  | _ => base c db
  end.

(** ** A concrete deployment *)

(** One decoder, one database and one controller, on which the statements
    below are exercised. *)
Module Demo.

Definition digit (c : ascii) : option Z :=
  let n := Z.of_N (N_of_ascii c) in
  if (48 <=? n)%Z && (n <=? 57)%Z then Some (n - 48)%Z else None.

Fixpoint digits (acc : Z) (s : string) : option Z :=
  match s with
  | EmptyString => Some acc
  | String c s' =>
      match digit c with
      | Some d => digits (10 * acc + d)%Z s'
      | None => None
      end
  end.

(** The plain decimal literals, which [int] reads with this value. *)
Definition int_of_str (s : string) : option Z :=
  match s with
  | EmptyString => None
  | _ => digits 0 s
  end.

(** Four tokens are valid; the last one carries no subject. *)
Definition decode_access_token (token : string) : option dict :=
  if String.eqb token "admin-token" then
    Some {[ "sub" := PyStr "1"; "role" := PyStr "admin" ]}
  else if String.eqb token "agent-token" then
    Some {[ "sub" := PyStr "7"; "role" := PyStr "agent" ]}
  else if String.eqb token "customer-token" then
    Some {[ "sub" := PyStr "42"; "role" := PyStr "customer" ]}
  else if String.eqb token "no-sub-token" then
    Some {[ "role" := PyStr "admin" ]}
  else None.

Definition message (c i : Z) (t : string) (r : bool) : ChatStore.Message :=
  {| ChatStore.msg_id := i; ChatStore.msg_chat_id := c;
     ChatStore.msg_sender := ChatStore.sender_customer;
     ChatStore.msg_agent_id := None; ChatStore.msg_text := t;
     ChatStore.msg_created_at := i; ChatStore.msg_read := r |}.

Definition chat (i owner stamp : Z) (ms : list ChatStore.Message)
  : ChatStore.Chat :=
  {| ChatStore.id := i; ChatStore.customer_id := owner;
     ChatStore.assigned_agent_id := None; ChatStore.mode := ChatStore.mode_bot;
     ChatStore.created_at := stamp; ChatStore.updated_at := stamp;
     ChatStore.messages := ms |}.

Definition db : list ChatStore.Chat :=
  [ chat 1 42 10 [message 1 1 "hello" true; message 1 2 "anyone?" false];
    chat 2 43 30 [];
    chat 3 42 20 [message 3 3 "thanks" false] ].

(** Apart from [get_all_chats], the controllers of this deployment find
    nothing. *)
Definition base (c : @controller_call unit unit) (d : list ChatStore.Chat)
  : result (list ChatStore.ChatSummary) * list ChatStore.Chat :=
  (Raised (HTTPException 404 "Not found"), d).

Definition controller := store_controller (λ l, l) base.

Definition exec {A : Type} (p : @prog unit unit (list ChatStore.ChatSummary) A)
  : outcome A :=
  run decode_access_token controller p db.

(** A message sent as an agent, with an [agent_id] of the client's
    choosing. *)
Definition from_agent : MessageCreate :=
  {| chat_id := 1; sender := "agent"; text := "How can I help?";
     agent_id := Some 99%Z |}.

Definition agent_7 : user := {| id := 7; role := PyStr "agent" |}.
Definition customer_42 : user := {| id := 42; role := PyStr "customer" |}.

End Demo.

(** ** Reading a run *)

(** The controller calls of a run, and the tokens it had decoded, in
    order. *)
Definition store_calls {ChatCreate ChatUpdate : Type}
    (evs : list (@event ChatCreate ChatUpdate))
  : list (@controller_call ChatCreate ChatUpdate) :=
  omap (λ ev, match ev with called c => Some c | decoded _ => None end) evs.

Definition decoded_tokens {ChatCreate ChatUpdate : Type}
    (evs : list (@event ChatCreate ChatUpdate)) : list string :=
  omap (λ ev, match ev with decoded token => Some token | called _ => None end)
       evs.

(** The handlers whose signature declares the [authorization] header:
    [list_chats] (line 52), [send_chat_message] (line 84) and
    [delete_chat_endpoint] (line 106). *)
Definition takes_credential {ChatCreate ChatUpdate : Type}
    (req : @request ChatCreate ChatUpdate) : bool :=
  match req with
  | GET_chats | POST_message _ | DELETE_chat _ => true
  | _ => false
  end.

(** Whether a string contains a space. *)
Fixpoint has_space (s : string) : bool :=
  match s with
  | EmptyString => false
  | String c s' => Ascii.eqb c " " || has_space s'
  end.

(** More requests for the concrete deployment. *)
Module Cases.

Definition admin_1 : user := {| id := 1; role := PyStr "admin" |}.

Definition from_customer : MessageCreate :=
  {| chat_id := 1; sender := "customer"; text := "hello"; agent_id := None |}.

Definition patch_plain : dict := {[ "text" := PyStr "edited" ]}.

Definition patch_noisy : dict :=
  {[ "text" := PyStr "edited"; "read" := PyBool true;
     "sender" := PyStr "agent" ]}.

End Cases.

(** * Properties *)

(** ** Strings *)

Lemma startswith_app (s p : string) :
  startswith s p = true → ∃ rest, s = (p +:+ rest)%string.
Proof.
  unfold startswith. revert s.
  induction p as [|c p IH]; intros s H.
  - by exists s.
  - destruct s as [|d s]; simpl in H; [done|].
    destruct (ascii_dec c d) as [->|]; [|done].
    destruct (IH s H) as [rest ->]. by exists rest.
Qed.

Lemma startswith_nonempty (s : string) :
  startswith s "Bearer " = true → String.eqb s "" = false.
Proof. by destruct s. Qed.

Lemma split_first (s : string) :
  split " " s !! 0 = Some (before_first_space s).
Proof.
  induction s as [|c s IH]; simpl; [done|].
  destruct (Ascii.eqb c " "); [done|].
  destruct (split " " s) as [|w ws]; [done|].
  simpl in *. by simplify_eq.
Qed.

(** The second piece of [split] is the text between the first and the second
    space. *)
Lemma split_second (s : string) :
  split " " s !! 1 = between_spaces s.
Proof.
  unfold between_spaces.
  induction s as [|c s IH]; simpl; [done|].
  destruct (Ascii.eqb c " ").
  - simpl. apply (split_first s).
  - pose proof (split_first s) as Hs.
    destruct (split " " s) as [|w ws]; [done|]. done.
Qed.

Lemma between_spaces_bearer (rest : string) :
  between_spaces ("Bearer " +:+ rest) = Some (before_first_space rest).
Proof. done. Qed.

(** ** Running programs *)

Section Properties.

Context {ChatCreate ChatUpdate response DB : Type}.
Variable int_of_str : string → option Z.
Variable decode_access_token : string → option dict.
Variable controller :
  @controller_call ChatCreate ChatUpdate → DB → result response * DB.

Local Abbreviation exec := (run decode_access_token controller).
Local Abbreviation current_user := (get_current_user int_of_str).

Lemma and_then_after {A B : Type} (ev : @event ChatCreate ChatUpdate)
    (o : outcome A) (f : A → DB → outcome B) :
  and_then (after ev o) f = after ev (and_then o f).
Proof. unfold and_then, after. simpl. by destruct (res o). Qed.

Lemma run_bind {A B : Type} (p : prog A) (f : A → prog B) (db : DB) :
  exec (p ≫= f) db = and_then (exec p db) (λ a db', exec (f a) db').
Proof.
  unfold mbind, prog_bind. revert db.
  induction p as [a|e|token k IH|c k IH]; intros db; simpl.
  - unfold and_then. simpl. by destruct (exec (f a) db).
  - done.
  - by rewrite IH, and_then_after.
  - destruct (controller c db) as [[r|e] db']; [|done].
    by rewrite IH, and_then_after.
Qed.

Lemma run_lift {A : Type} (r : result A) (db : DB) :
  exec (lift r) db = {| res := r; final := db; events := [] |}.
Proof. by destruct r. Qed.

Lemma run_call (c : controller_call) (db : DB) :
  exec (Call c Ret) db =
  {| res := (controller c db).1; final := (controller c db).2;
     events := [called c] |}.
Proof. simpl. by destruct (controller c db) as [[r|e] db']. Qed.

(** Building the identity from a payload calls nothing. *)
Lemma run_user_of_payload (payload : option dict) (db : DB) :
  ∃ r, exec (user_of_payload int_of_str payload) db =
       {| res := r; final := db; events := [] |}.
Proof.
  unfold user_of_payload.
  destruct payload as [payload|]; [|by eexists].
  destruct (negb (truthy (PyDict payload))); [by eexists|].
  rewrite run_bind, run_lift. unfold and_then. simpl.
  destruct (int int_of_str (get payload "sub")); by eexists.
Qed.

(** The calls of [get_current_user]: at most one, to the decoder, and
    only for a header that begins with [Bearer ]. *)
Lemma run_get_current_user (authorization : option string) (db : DB) :
  final (exec (current_user authorization) db) = db ∧
  events (exec (current_user authorization) db) =
    match authorization with
    | Some header =>
        if startswith header "Bearer " then
          match between_spaces header with
          | Some token => [decoded token]
          | None => []
          end
        else []
    | None => []
    end.
Proof.
  unfold get_current_user.
  destruct authorization as [header|]; [|done].
  destruct (startswith header "Bearer ") eqn:Hp; simpl.
  - rewrite (startswith_nonempty _ Hp). simpl.
    rewrite run_bind. unfold item. rewrite split_second.
    destruct (between_spaces header) as [token|]; [|done].
    unfold and_then. simpl.
    destruct (run_user_of_payload (decode_access_token token) db) as [r ->].
    done.
  - by rewrite orb_true_r.
Qed.

Lemma get_current_user_final (authorization : option string) (db : DB) :
  final (exec (current_user authorization) db) = db.
Proof. apply run_get_current_user. Qed.

Lemma get_current_user_no_store (authorization : option string) (db : DB) :
  reaches_store (events (exec (current_user authorization) db)) = false.
Proof.
  destruct (run_get_current_user authorization db) as [_ ->].
  destruct authorization as [header|]; [|done].
  destruct (startswith header "Bearer "); [|done].
  by destruct (between_spaces header).
Qed.

(** Raising an [HTTPException] whose status code is read from [status]
    stops at the name [status], which the module does not bind. *)
Lemma run_raise_http {A : Type} (attr detail : string) (db : DB) :
  exec (raise_http (A := A) attr detail) db =
  {| res := Raised (NameError "status"); final := db; events := [] |}.
Proof. done. Qed.

(** What [send_chat_message] does once the identity is known: one call of
    [send_message], after the calls of [get_current_user]. *)
Lemma run_send_chat_message (data : MessageCreate)
    (authorization : option string) (db : DB) (user : option user) :
  res (exec (current_user authorization) db) = Returned user →
  let data' :=
    if String.eqb (sender data) "agent" then
      match user with
      | Some u => set_agent_id data (Some (id u))
      | None => data
      end
    else data in
  exec (send_chat_message int_of_str data authorization) db =
  {| res := (controller (send_message data') db).1;
     final := (controller (send_message data') db).2;
     events := events (exec (current_user authorization) db)
               ++ [called (send_message data')] |}.
Proof.
  intros Hu data'. unfold send_chat_message.
  rewrite run_bind. unfold and_then. rewrite Hu.
  rewrite get_current_user_final, run_call. done.
Qed.

(** What [delete_chat_endpoint] does once the identity is known. *)
Lemma run_delete_chat_endpoint (chat_id : Z) (authorization : option string)
    (db : DB) (user : option user) :
  res (exec (current_user authorization) db) = Returned user →
  exec (delete_chat_endpoint int_of_str chat_id authorization) db =
  and_then (exec (current_user authorization) db)
    (λ _ db',
       if match user with
          | None => true
          | Some u => negb (eq_str (role u) "admin")
          end
       then {| res := Raised (NameError "status"); final := db'; events := [] |}
       else exec (Call (delete_chat chat_id) Ret) db').
Proof.
  intros Hu. unfold delete_chat_endpoint.
  rewrite run_bind. unfold and_then. rewrite Hu.
  destruct user as [u|]; [destruct (eq_str (role u) "admin")|]; simpl;
    by rewrite ?run_raise_http.
Qed.

(** ** The claims *)

(** C1. A [send_message] request whose payload has sender ["agent"] and
    whose credential resolves to an identity forwards to the store a
    payload whose [agent_id] is the caller's id, whatever [agent_id] the
    client supplied. *)
Theorem send_message_agent_id_is_caller (data : MessageCreate)
    (authorization : option string) (db : DB) (u : user) :
  sender data = "agent" →
  res (exec (current_user authorization) db) = Returned (Some u) →
  ∃ data',
    events (exec (dispatch int_of_str (POST_message data) authorization) db) =
      events (exec (current_user authorization) db)
      ++ [called (send_message data')]
    ∧ agent_id data' = Some (id u).
Proof.
  intros Hs Hu. simpl.
  rewrite (run_send_chat_message _ _ _ _ Hu), Hs. simpl.
  by eexists.
Qed.

(** C9. [send_chat_message] forwards the payload to the store with every
    field but [agent_id] unchanged; [agent_id] is overwritten, with the
    caller's id, exactly when the sender is ["agent"] and the credential
    resolves to an identity, of whatever role.  For an anonymous caller the
    client's [agent_id] goes through unmodified. *)
Theorem send_chat_message_frame (data : MessageCreate)
    (authorization : option string) (db : DB) (user : option user) :
  res (exec (current_user authorization) db) = Returned user →
  ∃ data',
    exec (send_chat_message int_of_str data authorization) db =
      {| res := (controller (send_message data') db).1;
         final := (controller (send_message data') db).2;
         events := events (exec (current_user authorization) db)
                   ++ [called (send_message data')] |}
    ∧ chat_id data' = chat_id data
    ∧ sender data' = sender data
    ∧ text data' = text data
    ∧ agent_id data' =
        match user with
        | Some u =>
            if bool_decide (sender data = "agent") then Some (id u)
            else agent_id data
        | None => agent_id data
        end.
Proof.
  intros Hu. eexists. split; [apply (run_send_chat_message _ _ _ _ Hu)|].
  case_bool_decide as Hs.
  - rewrite Hs. simpl. by destruct user.
  - apply String.eqb_neq in Hs. rewrite Hs. by destruct user.
Qed.

(** C2. A [delete_chat] request by a caller who is anonymous or whose role
    is not ["admin"] never reaches the store and leaves the database as it
    was; but the denial is not the Forbidden outcome: building the
    exception fails on the unbound name [status], and it is that
    [NameError] that leaves the handler. *)
Theorem delete_chat_non_admin_raises_name_error (chat_id : Z)
    (authorization : option string) (db : DB) (user : option user) :
  res (exec (current_user authorization) db) = Returned user →
  match user with Some u => eq_str (role u) "admin" = false | None => True end →
  let o := exec (dispatch int_of_str (DELETE_chat chat_id) authorization) db in
  res o = Raised (NameError "status")
  ∧ ¬ fails_with (res o) Forbidden
  ∧ final o = db
  ∧ reaches_store (events o) = false.
Proof.
  intros Hu Hrole o. subst o. simpl.
  rewrite (run_delete_chat_endpoint _ _ _ _ Hu).
  unfold and_then. rewrite Hu, get_current_user_final.
  assert (match user with
          | None => true
          | Some u => negb (eq_str (role u) "admin")
          end = true) as -> by (destruct user; [by rewrite Hrole|done]).
  simpl. rewrite app_nil_r.
  split_and!; [done| |done|apply get_current_user_no_store].
  by intros [detail ?].
Qed.

(** C4. An [update_message] request whose patch has an empty or a missing
    text never reaches the store and leaves the database as it was; but
    the failure is not the InvalidArgument outcome: building the exception
    fails on the unbound name [status]. *)
Theorem update_message_empty_text_raises_name_error (message_id : Z)
    (data : dict) (authorization : option string) (db : DB) :
  truthy (get data "text") = false →
  let o := exec (dispatch int_of_str (PATCH_message message_id data)
                   authorization) db in
  res o = Raised (NameError "status")
  ∧ ¬ fails_with (res o) InvalidArgument
  ∧ final o = db
  ∧ events o = [].
Proof.
  intros Ht o. subst o. simpl. unfold update_message_endpoint.
  rewrite Ht. simpl. split_and!; try done.
  by intros [detail ?].
Qed.

(** C3. [get_current_user] raises when the token decodes to a payload whose
    subject [int] rejects: the exception of [int] leaves the function. *)
Theorem get_current_user_raises_on_bad_subject (header token : string)
    (payload : dict) (e : exn) (db : DB) :
  startswith header "Bearer " = true →
  between_spaces header = Some token →
  decode_access_token token = Some payload →
  payload ≠ ∅ →
  int int_of_str (get payload "sub") = Raised e →
  res (exec (current_user (Some header)) db) = Raised e.
Proof.
  intros Hp Ht Hd Hne He. unfold get_current_user, truthy.
  rewrite (startswith_nonempty _ Hp), Hp. simpl.
  rewrite run_bind. unfold item. rewrite split_second, Ht.
  unfold and_then. simpl. rewrite Hd. unfold user_of_payload. simpl.
  rewrite bool_decide_eq_false_2 by done. simpl.
  rewrite run_bind, run_lift, He. done.
Qed.

(** C5, as amended. A [delete_chat] request without a resolvable identity
    is denied on the same branch as one by an authenticated caller who is
    not an admin: both have the same result, neither reaches the store, and
    the database is left as it was. *)
Theorem delete_chat_anonymous_same_as_non_admin (chat_id : Z)
    (anonymous authenticated : option string) (db : DB) (u : user) :
  res (exec (current_user anonymous) db) = Returned None →
  res (exec (current_user authenticated) db) = Returned (Some u) →
  eq_str (role u) "admin" = false →
  let o1 := exec (dispatch int_of_str (DELETE_chat chat_id) anonymous) db in
  let o2 := exec (dispatch int_of_str (DELETE_chat chat_id) authenticated) db in
  res o1 = res o2
  ∧ final o1 = db ∧ final o2 = db
  ∧ reaches_store (events o1) = false ∧ reaches_store (events o2) = false.
Proof.
  intros H1 H2 Hrole o1 o2. subst o1 o2. simpl.
  rewrite (run_delete_chat_endpoint _ _ _ _ H1).
  rewrite (run_delete_chat_endpoint _ _ _ _ H2).
  unfold and_then. rewrite H1, H2, Hrole, !get_current_user_final. simpl.
  rewrite !app_nil_r.
  split_and!; try done; apply get_current_user_no_store.
Qed.

(** C8, as amended. [mark_messages_as_read] and [delete_message] go to the
    store for every input and every credential; [update_message] goes to
    the store when the text of the patch is not empty, and does not reach
    it otherwise.  None of the three looks at the credential. *)
Theorem unguarded_message_routes (req : request)
    (authorization authorization' : option string) (db : DB) :
  match req with
  | POST_read chat_id =>
      exec (dispatch int_of_str req authorization) db =
      exec (Call (mark_messages_as_read chat_id) Ret) db
  | DELETE_message message_id =>
      exec (dispatch int_of_str req authorization) db =
      exec (Call (delete_message message_id) Ret) db
  | PATCH_message message_id data =>
      if truthy (get data "text") then
        exec (dispatch int_of_str req authorization) db =
        exec (Call (update_message message_id (get data "text")) Ret) db
      else
        reaches_store (events (exec (dispatch int_of_str req authorization) db))
        = false
  | _ => True
  end
  ∧ match req with
    | POST_read _ | DELETE_message _ | PATCH_message _ _ =>
        exec (dispatch int_of_str req authorization) db =
        exec (dispatch int_of_str req authorization') db
    | _ => True
    end.
Proof.
  destruct req; try done. simpl. unfold update_message_endpoint.
  by destruct (truthy (get data "text")).
Qed.

(** C10. For a header that is absent or does not begin with [Bearer ],
    [get_current_user] returns absence and asks for no token to be decoded;
    for a header with the prefix, the one token it submits for decoding is
    the text between the first and the second space of the header. *)
Theorem get_current_user_bearer_token (authorization : option string)
    (db : DB) :
  match authorization with
  | Some header =>
      if startswith header "Bearer " then
        ∃ token, between_spaces header = Some token
                 ∧ events (exec (current_user authorization) db)
                   = [decoded token]
      else
        exec (current_user authorization) db =
        {| res := Returned None; final := db; events := [] |}
  | None =>
      exec (current_user authorization) db =
      {| res := Returned None; final := db; events := [] |}
  end.
Proof.
  destruct authorization as [header|]; [|done].
  destruct (startswith header "Bearer ") eqn:Hp.
  - destruct (startswith_app _ _ Hp) as [rest ->].
    exists (before_first_space rest). split; [done|].
    destruct (run_get_current_user (Some ("Bearer " +:+ rest)%string) db)
      as [_ ->].
    by rewrite Hp.
  - unfold get_current_user. rewrite Hp. by rewrite orb_true_r.
Qed.

End Properties.

(** C7. [get_chat] takes no credential: whatever the header of the request
    and whatever the decoder would make of it, the outcome is that of the
    one call [get_chat_detail chat_id], and nothing is decoded. *)
Theorem get_chat_ignores_credential {ChatCreate ChatUpdate response DB : Type}
    (int_of_str : string → option Z)
    (decode1 decode2 : string → option dict)
    (controller : @controller_call ChatCreate ChatUpdate → DB →
                  result response * DB)
    (chat_id : Z) (authorization1 authorization2 : option string) (db : DB) :
  run decode1 controller
    (dispatch int_of_str (GET_chat chat_id) authorization1) db =
  run decode2 controller
    (dispatch int_of_str (GET_chat chat_id) authorization2) db
  ∧ run decode1 controller
      (dispatch int_of_str (GET_chat chat_id) authorization1) db =
    {| res := (controller (get_chat_detail chat_id) db).1;
       final := (controller (get_chat_detail chat_id) db).2;
       events := [called (get_chat_detail chat_id)] |}.
Proof.
  unfold dispatch, get_chat. by rewrite !run_call.
Qed.

(** ** The visibility of chats *)

Lemma filter_visible_all (user_id : option Z) (user_role : pyval)
    (db : list ChatStore.Chat) :
  (∀ c, ChatStore.visible user_id user_role c = true) →
  filter (λ c, ChatStore.visible user_id user_role c) db = db.
Proof.
  intros Hv. induction db as [|c db IH]; [done|].
  rewrite filter_cons_True by (by rewrite Hv). by rewrite IH.
Qed.

Lemma get_all_chats_unfiltered (user_id : option Z) (user_role : pyval)
    (db : list ChatStore.Chat) :
  (∀ c, ChatStore.visible user_id user_role c = true) →
  ChatStore.get_all_chats db user_id user_role ≡ₚ ChatStore.summary <$> db.
Proof.
  intros Hv. unfold ChatStore.get_all_chats.
  by rewrite merge_sort_Permutation, filter_visible_all.
Qed.

Lemma get_all_chats_customer (uid : Z) (db : list ChatStore.Chat) :
  ChatStore.get_all_chats db (Some uid) (PyStr "customer") ≡ₚ
  ChatStore.summary <$> filter (λ c, ChatStore.customer_id c = uid) db.
Proof.
  unfold ChatStore.get_all_chats. rewrite merge_sort_Permutation.
  rewrite (list_filter_iff _ (λ c, ChatStore.customer_id c = uid)); [done|].
  intros c. simpl. by rewrite bool_decide_spec.
Qed.

(** C6. [list_chats] passes the caller's id and role on to
    [get_all_chats], which filters by them: an anonymous caller, an agent
    and an admin get all chats; a customer gets the chats that belong to
    them, and no other. *)
Theorem list_chats_visibility {ChatCreate ChatUpdate response : Type}
    (int_of_str : string → option Z)
    (decode_access_token : string → option dict)
    (chat_list : list ChatStore.ChatSummary → response)
    (base : @controller_call ChatCreate ChatUpdate → list ChatStore.Chat →
            result response * list ChatStore.Chat)
    (authorization : option string) (db : list ChatStore.Chat)
    (user : option user) :
  res (run decode_access_token (store_controller chat_list base)
         (get_current_user int_of_str authorization) db) = Returned user →
  ∃ chats,
    res (run decode_access_token (store_controller chat_list base)
           (dispatch int_of_str GET_chats authorization) db)
    = Returned (chat_list chats)
    ∧ match user with
      | None => chats ≡ₚ ChatStore.summary <$> db
      | Some u =>
          (role u = PyStr "agent" ∨ role u = PyStr "admin" →
           chats ≡ₚ ChatStore.summary <$> db)
          ∧ (role u = PyStr "customer" →
             chats ≡ₚ ChatStore.summary <$>
                       filter (λ c, ChatStore.customer_id c = id u) db
             ∧ Forall (λ s, ChatStore.summary_customer_id s = id u) chats)
      end.
Proof.
  intros Hu. simpl. unfold list_chats.
  rewrite run_bind. unfold and_then. rewrite Hu.
  rewrite get_current_user_final, run_call. simpl.
  eexists. split; [done|].
  destruct user as [u|].
  - split.
    + intros Hr. apply get_all_chats_unfiltered. intros c. simpl.
      by destruct Hr as [-> | ->].
    + intros ->. pose proof (get_all_chats_customer (id u) db) as Hp.
      split; [done|]. rewrite Hp.
      apply Forall_fmap, Forall_forall. intros c Hc.
      by apply list_elem_of_filter in Hc as [? _].
  - by apply get_all_chats_unfiltered.
Qed.

(** ** The claims on the concrete deployment *)

Example split_bearer :
  split " " "Bearer abc def" = ["Bearer"; "abc"; "def"]%string
  ∧ split " " "Bearer  abc" = ["Bearer"; ""; "abc"]%string
  ∧ split " " "Bearer " = ["Bearer"; ""]%string
  ∧ split " " "" = [""]%string.
Proof. done. Qed.

Example current_user_of_tokens :
  res (Demo.exec (get_current_user Demo.int_of_str (Some "Bearer agent-token")))
  = Returned (Some Demo.agent_7)
  ∧ res (Demo.exec (get_current_user Demo.int_of_str (Some "Bearer forged")))
    = Returned None
  ∧ res (Demo.exec (get_current_user Demo.int_of_str (Some "bearer agent-token")))
    = Returned None
  ∧ res (Demo.exec (get_current_user Demo.int_of_str None)) = Returned None.
Proof. vm_compute. done. Qed.

Lemma send_message_agent_id_is_caller_witness :
  ∃ data',
    events (Demo.exec (dispatch Demo.int_of_str (POST_message Demo.from_agent)
                         (Some "Bearer agent-token"))) =
      events (Demo.exec (get_current_user Demo.int_of_str
                           (Some "Bearer agent-token")))
      ++ [called (send_message data')]
    ∧ agent_id data' = Some 7%Z.
Proof.
  apply (send_message_agent_id_is_caller Demo.int_of_str
           Demo.decode_access_token Demo.controller Demo.from_agent
           (Some "Bearer agent-token"%string) Demo.db Demo.agent_7).
  - reflexivity.
  - vm_compute. reflexivity.
Defined.

Lemma send_chat_message_frame_witness :
  ∃ data',
    Demo.exec (send_chat_message Demo.int_of_str Demo.from_agent None) =
      {| res := (Demo.controller (send_message data') Demo.db).1;
         final := (Demo.controller (send_message data') Demo.db).2;
         events := events (Demo.exec (get_current_user Demo.int_of_str None))
                   ++ [called (send_message data')] |}
    ∧ chat_id data' = 1%Z
    ∧ sender data' = "agent"
    ∧ text data' = "How can I help?"
    ∧ agent_id data' = Some 99%Z.
Proof.
  apply (send_chat_message_frame Demo.int_of_str Demo.decode_access_token
           Demo.controller Demo.from_agent None Demo.db None).
  reflexivity.
Defined.

Lemma delete_chat_non_admin_raises_name_error_witness :
  let o := Demo.exec (dispatch Demo.int_of_str (DELETE_chat 1)
                        (Some "Bearer agent-token")) in
  res o = Raised (NameError "status")
  ∧ ¬ fails_with (res o) Forbidden
  ∧ final o = Demo.db
  ∧ reaches_store (events o) = false.
Proof.
  apply (delete_chat_non_admin_raises_name_error Demo.int_of_str
           Demo.decode_access_token Demo.controller 1
           (Some "Bearer agent-token"%string) Demo.db (Some Demo.agent_7)).
  - vm_compute. reflexivity.
  - reflexivity.
Defined.

Lemma update_message_empty_text_raises_name_error_witness :
  let o := Demo.exec (dispatch Demo.int_of_str
                        (PATCH_message 1 {[ "text" := PyStr "" ]}) None) in
  res o = Raised (NameError "status")
  ∧ ¬ fails_with (res o) InvalidArgument
  ∧ final o = Demo.db
  ∧ events o = [].
Proof.
  apply (update_message_empty_text_raises_name_error Demo.int_of_str
           Demo.decode_access_token Demo.controller 1
           {[ "text" := PyStr "" ]} None Demo.db).
  vm_compute. reflexivity.
Defined.

Lemma get_current_user_raises_on_bad_subject_witness :
  res (Demo.exec (get_current_user Demo.int_of_str
                    (Some "Bearer no-sub-token")))
  = Raised TypeError.
Proof.
  apply (get_current_user_raises_on_bad_subject Demo.int_of_str
           Demo.decode_access_token Demo.controller
           "Bearer no-sub-token" "no-sub-token"
           {[ "role" := PyStr "admin" ]} TypeError Demo.db).
  - reflexivity.
  - reflexivity.
  - reflexivity.
  - apply (bool_decide_eq_false_1 _). vm_compute. reflexivity.
  - vm_compute. reflexivity.
Defined.

(** C5, as stated, fails: without a credential the outcome of
    [delete_chat] is not Unauthenticated. *)
Lemma delete_chat_anonymous_not_unauthenticated :
  ¬ fails_with
      (res (Demo.exec (dispatch Demo.int_of_str (DELETE_chat 1) None)))
      Unauthenticated.
Proof. intros [detail H]. vm_compute in H. discriminate H. Qed.

Lemma delete_chat_anonymous_same_as_non_admin_witness :
  let o1 := Demo.exec (dispatch Demo.int_of_str (DELETE_chat 1) None) in
  let o2 := Demo.exec (dispatch Demo.int_of_str (DELETE_chat 1)
                         (Some "Bearer customer-token")) in
  res o1 = res o2
  ∧ final o1 = Demo.db ∧ final o2 = Demo.db
  ∧ reaches_store (events o1) = false ∧ reaches_store (events o2) = false.
Proof.
  apply (delete_chat_anonymous_same_as_non_admin Demo.int_of_str
           Demo.decode_access_token Demo.controller 1 None
           (Some "Bearer customer-token"%string) Demo.db Demo.customer_42).
  - reflexivity.
  - vm_compute. reflexivity.
  - reflexivity.
Defined.

(** C8, as stated, fails: an [update_message] request with an empty text
    does not proceed to the store. *)
Lemma update_message_empty_text_skips_store :
  reaches_store
    (events (Demo.exec (dispatch Demo.int_of_str
                          (PATCH_message 1 {[ "text" := PyStr "" ]}) None)))
  = false.
Proof. vm_compute. reflexivity. Qed.

Lemma list_chats_visibility_witness :
  ∃ chats,
    res (Demo.exec (dispatch Demo.int_of_str GET_chats
                      (Some "Bearer customer-token")))
    = Returned chats
    ∧ ((PyStr "customer" = PyStr "agent" ∨ PyStr "customer" = PyStr "admin" →
        chats ≡ₚ ChatStore.summary <$> Demo.db)
       ∧ (PyStr "customer" = PyStr "customer" →
          chats ≡ₚ ChatStore.summary <$>
                    filter (λ c, ChatStore.customer_id c = 42%Z) Demo.db
          ∧ Forall (λ s, ChatStore.summary_customer_id s = 42%Z) chats)).
Proof.
  apply (list_chats_visibility Demo.int_of_str Demo.decode_access_token
           (λ l, l) Demo.base (Some "Bearer customer-token"%string) Demo.db
           (Some Demo.customer_42)).
  vm_compute. reflexivity.
Defined.

Example list_chats_of_customer_42 :
  res (Demo.exec (dispatch Demo.int_of_str GET_chats
                    (Some "Bearer customer-token")))
  = Returned
      [ {| ChatStore.summary_id := 3; ChatStore.summary_customer_id := 42;
           ChatStore.last_message := Some "thanks"%string;
           ChatStore.unread_count := 1 |};
        {| ChatStore.summary_id := 1; ChatStore.summary_customer_id := 42;
           ChatStore.last_message := Some "anyone?"%string;
           ChatStore.unread_count := 1 |} ].
Proof. vm_compute. reflexivity. Qed.

Example list_chats_anonymous :
  match res (Demo.exec (dispatch Demo.int_of_str GET_chats None)) with
  | Returned chats => ChatStore.summary_id <$> chats
  | Raised _ => []
  end = [2; 3; 1]%Z.
Proof. vm_compute. reflexivity. Qed.

(** * Further properties of the routes *)

Lemma eq_str_true (v : pyval) (s : string) :
  eq_str v s = true ↔ v = PyStr s.
Proof.
  destruct v; simpl; try (split; [done|by intros [=]]).
  rewrite String.eqb_eq. split; [by intros ->|by intros [= ->]].
Qed.

Lemma before_first_space_no_space (s : string) :
  has_space s = false → before_first_space s = s.
Proof.
  induction s as [|c s IH]; simpl; [done|].
  destruct (Ascii.eqb c " "); simpl; [done|].
  intros H. by rewrite IH.
Qed.

Lemma before_first_space_app (s extra : string) :
  has_space s = false →
  before_first_space (s +:+ " " +:+ extra) = s.
Proof.
  induction s as [|c s IH]; simpl; [done|].
  destruct (Ascii.eqb c " "); simpl; [done|].
  intros H. by rewrite IH.
Qed.

Lemma startswith_bearer (rest : string) :
  startswith ("Bearer " +:+ rest) "Bearer " = true.
Proof. unfold startswith. simpl. by destruct rest. Qed.

Section Extras.

Context {ChatCreate ChatUpdate response DB : Type}.
Variable int_of_str : string → option Z.
Variable decode_access_token : string → option dict.
Variable controller :
  @controller_call ChatCreate ChatUpdate → DB → result response * DB.

Local Abbreviation exec := (run decode_access_token controller).
Local Abbreviation current_user := (get_current_user int_of_str).

Lemma int_exn (v : pyval) (e : exn) :
  int int_of_str v = Raised e →
  e = TypeError ∨ e = ValueError ∨ e = OverflowError.
Proof.
  destruct v as [| | |f| | |]; simpl; try (intros [= <-]; auto); try done.
  - destruct f; simpl; intros [= <-]; auto.
  - destruct (int_of_str s); intros [= <-]; auto.
Qed.

(** The run of [get_current_user] on a header with the prefix: one
    decoding, of what follows the prefix up to its first space, and then
    the identity of the payload. *)
Lemma run_current_user_bearer (rest : string) (db : DB) :
  exec (current_user (Some ("Bearer " +:+ rest)%string)) db =
  after (decoded (before_first_space rest))
    (exec (user_of_payload int_of_str
             (decode_access_token (before_first_space rest))) db).
Proof.
  unfold get_current_user. rewrite startswith_bearer.
  change (negb (truthy (PyStr ("Bearer " +:+ rest))) || negb true) with false.
  cbv iota. rewrite run_bind. unfold item.
  rewrite split_second, between_spaces_bearer.
  unfold and_then. simpl.
  by destruct (exec (user_of_payload _ _) db).
Qed.

Lemma run_current_user_header (header : string) (db : DB) :
  startswith header "Bearer " = true →
  ∃ token,
    between_spaces header = Some token
    ∧ exec (current_user (Some header)) db =
      after (decoded token)
        (exec (user_of_payload int_of_str (decode_access_token token)) db).
Proof.
  intros Hp. destruct (startswith_app _ _ Hp) as [rest ->].
  exists (before_first_space rest). split; [done|].
  apply run_current_user_bearer.
Qed.

Lemma run_current_user_absent (authorization : option string) (db : DB) :
  match authorization with
  | Some header => startswith header "Bearer " = false
  | None => True
  end →
  exec (current_user authorization) db =
  {| res := Returned None; final := db; events := [] |}.
Proof.
  destruct authorization as [header|]; [|done].
  intros Hp. unfold get_current_user. rewrite Hp. by rewrite orb_true_r.
Qed.

(** The outcome of [get_current_user] in general: the database is
    untouched, the store is not called, and at most one token is decoded. *)
Lemma current_user_outcome (authorization : option string) (db : DB) :
  ∃ r evs,
    exec (current_user authorization) db =
      {| res := r; final := db; events := evs |}
    ∧ store_calls evs = []
    ∧ reaches_store evs = false
    ∧ length (decoded_tokens evs) ≤ 1.
Proof.
  destruct authorization as [header|];
    [destruct (startswith header "Bearer ") eqn:Hp|].
  - destruct (run_current_user_header header db Hp) as (token & _ & ->).
    destruct (run_user_of_payload int_of_str decode_access_token controller
                (decode_access_token token) db) as [r ->].
    exists r, [decoded token]. split_and!; try done.
  - rewrite (run_current_user_absent (Some header) db Hp).
    exists (Returned None), []. split_and!; try done. simpl. lia.
  - exists (Returned None), []. split_and!; try done. simpl. lia.
Qed.

(** An exception of [get_current_user] is an exception of [int] on the
    subject of the payload the decoder gave for the token of the header. *)
Lemma current_user_raised (authorization : option string) (db : DB)
    (e : exn) :
  res (exec (current_user authorization) db) = Raised e →
  ∃ header token payload,
    authorization = Some header
    ∧ between_spaces header = Some token
    ∧ decode_access_token token = Some payload
    ∧ int int_of_str (get payload "sub") = Raised e.
Proof.
  intros He. destruct authorization as [header|]; [|done].
  destruct (startswith header "Bearer ") eqn:Hp.
  - destruct (run_current_user_header header db Hp) as (token & Ht & Hr).
    rewrite Hr in He. simpl in He. unfold user_of_payload in He.
    destruct (decode_access_token token) as [payload|] eqn:Hd; [|done].
    destruct (negb (truthy (PyDict payload))); [done|].
    rewrite run_bind, run_lift in He. unfold and_then in He. simpl in He.
    destruct (int int_of_str (get payload "sub")) as [n|e'] eqn:Hi;
      [done|].
    simpl in He. injection He as ->. by exists header, token, payload.
  - by rewrite (run_current_user_absent (Some header) db Hp) in He.
Qed.

(** X1. The only exceptions that leave [get_current_user] are those of
    [int] on the subject of a decoded payload: [TypeError], [ValueError]
    or [OverflowError].  In particular the index into the split header is
    always in range. *)
Theorem get_current_user_exceptions (authorization : option string)
    (db : DB) (e : exn) :
  res (exec (current_user authorization) db) = Raised e →
  (∃ header token payload,
     authorization = Some header
     ∧ between_spaces header = Some token
     ∧ decode_access_token token = Some payload
     ∧ int int_of_str (get payload "sub") = Raised e)
  ∧ (e = TypeError ∨ e = ValueError ∨ e = OverflowError).
Proof.
  intros He. pose proof (current_user_raised _ _ _ He) as H.
  split; [done|].
  destruct H as (_ & _ & payload & _ & _ & _ & Hi). by eapply int_exn.
Qed.

(** X2. For a header with the prefix whose token decodes to a non-empty
    payload with a subject [int] accepts, [get_current_user] returns the
    identity made of that integer and of the role claim as it stands
    ([None] when the payload has none), after the one decoding. *)
Theorem get_current_user_identity (header token : string) (payload : dict)
    (n : Z) (db : DB) :
  startswith header "Bearer " = true →
  between_spaces header = Some token →
  decode_access_token token = Some payload →
  payload ≠ ∅ →
  int int_of_str (get payload "sub") = Returned n →
  exec (current_user (Some header)) db =
  {| res := Returned (Some {| id := n; role := get payload "role" |});
     final := db; events := [decoded token] |}.
Proof.
  intros Hp Ht Hd Hne Hi.
  destruct (run_current_user_header header db Hp) as (token' & Ht' & ->).
  assert (token' = token) as -> by congruence.
  rewrite Hd. unfold user_of_payload. simpl.
  rewrite bool_decide_eq_false_2 by done. simpl.
  rewrite run_bind, run_lift, Hi. done.
Qed.

(** X3. When the decoder answers [None], or an empty payload, for the
    token of a header with the prefix, [get_current_user] returns absence,
    after the one decoding. *)
Theorem get_current_user_falsy_payload (header token : string) (db : DB) :
  startswith header "Bearer " = true →
  between_spaces header = Some token →
  decode_access_token token = None ∨ decode_access_token token = Some ∅ →
  exec (current_user (Some header)) db =
  {| res := Returned None; final := db; events := [decoded token] |}.
Proof.
  intros Hp Ht Hd.
  destruct (run_current_user_header header db Hp) as (token' & Ht' & ->).
  assert (token' = token) as -> by congruence.
  by destruct Hd as [-> | ->].
Qed.

(** X4. What follows the second space of the header is ignored: a header
    with further segments after the token has the outcome of the header
    that ends with the token. *)
Theorem get_current_user_ignores_later_segments (token extra : string)
    (db : DB) :
  has_space token = false →
  exec (current_user (Some ("Bearer " +:+ token +:+ " " +:+ extra)%string)) db =
  exec (current_user (Some ("Bearer " +:+ token)%string)) db.
Proof.
  intros Hs. rewrite !run_current_user_bearer.
  by rewrite before_first_space_app, before_first_space_no_space.
Qed.

(** X5. A header that is just the prefix, or that has a second space right
    after it, still goes to the decoder, with the empty token. *)
Theorem get_current_user_empty_token (rest : string) (db : DB) :
  events (exec (current_user (Some "Bearer ")) db) = [decoded ""]
  ∧ events (exec (current_user (Some ("Bearer " +:+ " " +:+ rest)%string)) db)
    = [decoded ""].
Proof.
  split.
  - change "Bearer "%string with ("Bearer " +:+ "")%string.
    rewrite run_current_user_bearer. simpl.
    by destruct (run_user_of_payload int_of_str decode_access_token controller
                   (decode_access_token "") db) as [r ->].
  - rewrite run_current_user_bearer. simpl.
    by destruct (run_user_of_payload int_of_str decode_access_token controller
                   (decode_access_token "") db) as [r ->].
Qed.

Lemma reaches_store_app (evs evs' : list (@event ChatCreate ChatUpdate)) :
  reaches_store (evs ++ evs') = reaches_store evs || reaches_store evs'.
Proof. apply existsb_app. Qed.

Lemma store_calls_app (evs evs' : list (@event ChatCreate ChatUpdate)) :
  store_calls (evs ++ evs') = store_calls evs ++ store_calls evs'.
Proof. apply omap_app. Qed.

Lemma decoded_tokens_app (evs evs' : list (@event ChatCreate ChatUpdate)) :
  decoded_tokens (evs ++ evs') = decoded_tokens evs ++ decoded_tokens evs'.
Proof. apply omap_app. Qed.

(** X6. A [delete_chat] request by a caller whose role is ["admin"] makes
    the one call [delete_chat chat_id] and returns what the controller
    returns, its exceptions included. *)
Theorem delete_chat_admin_reaches_store (chat_id : Z)
    (authorization : option string) (db : DB) (u : user) :
  res (exec (current_user authorization) db) = Returned (Some u) →
  role u = PyStr "admin" →
  exec (dispatch int_of_str (DELETE_chat chat_id) authorization) db =
  {| res := (controller (delete_chat chat_id) db).1;
     final := (controller (delete_chat chat_id) db).2;
     events := events (exec (current_user authorization) db)
               ++ [called (delete_chat chat_id)] |}.
Proof.
  intros Hu Hr. unfold dispatch.
  rewrite (run_delete_chat_endpoint _ _ _ _ _ _ _ Hu).
  unfold and_then. rewrite Hu, Hr, get_current_user_final, run_call. done.
Qed.

(** X7. [delete_chat] reaches the store exactly when the credential
    resolves to an identity whose role is the string ["admin"]: any other
    role, another spelling of it, a role that is no string, no identity, or
    a failure to resolve one, all stop before the store. *)
Theorem delete_chat_reaches_store_iff_admin (chat_id : Z)
    (authorization : option string) (db : DB) :
  reaches_store
    (events (exec (dispatch int_of_str (DELETE_chat chat_id) authorization) db))
  = true
  ↔ ∃ u, res (exec (current_user authorization) db) = Returned (Some u)
         ∧ role u = PyStr "admin".
Proof.
  unfold dispatch, delete_chat_endpoint. rewrite run_bind.
  destruct (current_user_outcome authorization db)
    as (r & evs & -> & _ & Hs & _).
  unfold and_then. cbn [res final events].
  destruct r as [[u|]|e].
  - destruct (eq_str (role u) "admin") eqn:Hr; cbn [negb].
    + rewrite run_call. cbn [events]. rewrite reaches_store_app, Hs.
      split; [|done]. intros _. exists u. by rewrite <-eq_str_true.
    + rewrite run_raise_http. cbn [events]. rewrite app_nil_r, Hs.
      split; [done|]. intros (u' & [= <-] & Hu'%eq_str_true). congruence.
  - rewrite run_raise_http. cbn [events]. rewrite app_nil_r, Hs.
    split; [done|]. by intros (u' & [=] & _).
  - cbn [events]. rewrite Hs. split; [done|]. by intros (u' & [=] & _).
Qed.

(** X8. When [get_current_user] raises, every handler that takes the
    credential ([list_chats], [send_chat_message], [delete_chat_endpoint])
    raises the same exception, without reaching the store: a token whose
    payload has a bad subject fails the request whatever it asks for. *)
Theorem credential_failure_propagates (req : request)
    (authorization : option string) (db : DB) (e : exn) :
  takes_credential req = true →
  res (exec (current_user authorization) db) = Raised e →
  let o := exec (dispatch int_of_str req authorization) db in
  res o = Raised e ∧ final o = db ∧ reaches_store (events o) = false.
Proof.
  intros Hc He o. subst o.
  destruct req; try done; unfold dispatch;
    [unfold list_chats|unfold send_chat_message|unfold delete_chat_endpoint];
    rewrite run_bind; unfold and_then; rewrite He; cbn [res final events];
    (split_and!;
     [done|apply get_current_user_final|apply get_current_user_no_store]).
Qed.

(** X9. [list_chats] makes the one call [get_all_chats], with the id and
    the role of the identity as they stand, or with [None] for both when
    there is no identity, and returns what the controller returns. *)
Theorem list_chats_forwards_identity (authorization : option string)
    (db : DB) (user : option user) :
  res (exec (current_user authorization) db) = Returned user →
  let user_id := match user with Some u => Some (id u) | None => None end in
  let user_role := match user with Some u => role u | None => PyNone end in
  exec (dispatch int_of_str GET_chats authorization) db =
  {| res := (controller (get_all_chats user_id user_role) db).1;
     final := (controller (get_all_chats user_id user_role) db).2;
     events := events (exec (current_user authorization) db)
               ++ [called (get_all_chats user_id user_role)] |}.
Proof.
  intros Hu user_id user_role. unfold dispatch, list_chats.
  rewrite run_bind. unfold and_then. rewrite Hu.
  rewrite get_current_user_final, run_call. done.
Qed.

(** X11. Every handler makes at most one controller call.  When it makes
    one, its result and the database it leaves are the controller's,
    unchanged; when it makes none, it raised and the database is as it
    was.  No handler returns without calling a controller. *)
Theorem handlers_pass_through (req : request)
    (authorization : option string) (db : DB) :
  match store_calls
          (events (exec (dispatch int_of_str req authorization) db)) with
  | [] =>
      final (exec (dispatch int_of_str req authorization) db) = db
      ∧ ∃ e, res (exec (dispatch int_of_str req authorization) db) = Raised e
  | [c] =>
      res (exec (dispatch int_of_str req authorization) db)
      = (controller c db).1
      ∧ final (exec (dispatch int_of_str req authorization) db)
        = (controller c db).2
  | _ => False
  end.
Proof.
  destruct (current_user_outcome authorization db)
    as (r & evs & Hr & Hs & _ & _).
  destruct req; unfold dispatch.
  - unfold list_chats. rewrite run_bind, Hr. unfold and_then.
    cbn [res final events]. destruct r as [user|e].
    + rewrite run_call. cbn [res final events].
      by rewrite store_calls_app, Hs.
    + cbn [res final events]. rewrite Hs. eauto.
  - unfold get_chat. by rewrite run_call.
  - unfold create_new_chat. by rewrite run_call.
  - unfold update_chat_data. by rewrite run_call.
  - unfold send_chat_message. rewrite run_bind, Hr. unfold and_then.
    cbn [res final events]. destruct r as [user|e].
    + rewrite run_call. cbn [res final events].
      by rewrite store_calls_app, Hs.
    + cbn [res final events]. rewrite Hs. eauto.
  - unfold mark_chat_as_read. by rewrite run_call.
  - unfold delete_chat_endpoint. rewrite run_bind, Hr. unfold and_then.
    cbn [res final events]. destruct r as [user|e].
    + destruct (match user with
                | Some u => negb (eq_str (role u) "admin")
                | None => true
                end).
      * rewrite run_raise_http. cbn [res final events].
        rewrite app_nil_r, Hs. eauto.
      * rewrite run_call. cbn [res final events].
        by rewrite store_calls_app, Hs.
    + cbn [res final events]. rewrite Hs. eauto.
  - unfold update_message_endpoint.
    destruct (negb (truthy (get data "text"))).
    + rewrite run_raise_http. cbn. eauto.
    + by rewrite run_call.
  - unfold delete_message_endpoint. by rewrite run_call.
Qed.

(** X12. No handler raises an [HTTPException] of its own: an
    [HTTPException] that leaves a request was raised by a controller. *)
Theorem handlers_never_raise_http (req : request)
    (authorization : option string) (db : DB) (code : Z) (detail : string) :
  res (exec (dispatch int_of_str req authorization) db)
  = Raised (HTTPException code detail) →
  ∃ c, store_calls (events (exec (dispatch int_of_str req authorization) db))
       = [c]
       ∧ (controller c db).1 = Raised (HTTPException code detail).
Proof.
  assert (res (exec (current_user authorization) db)
          ≠ Raised (HTTPException code detail)) as Hcu.
  { intros (_ & _ & payload & _ & _ & _ & Hi)%current_user_raised.
    by destruct (int_exn _ _ Hi) as [? | [? | ?]]. }
  destruct (current_user_outcome authorization db)
    as (r & evs & Hr & Hs & _ & _).
  rewrite Hr in Hcu. cbn [res] in Hcu.
  destruct req; unfold dispatch.
  - unfold list_chats. rewrite run_bind, Hr. unfold and_then.
    cbn [res final events]. destruct r as [user|e]; [|cbn [res]; intros [= ->]; by destruct Hcu].
    rewrite run_call. cbn [res events]. intros He.
    eexists. by rewrite store_calls_app, Hs.
  - unfold get_chat. rewrite run_call. cbn. eauto.
  - unfold create_new_chat. rewrite run_call. cbn. eauto.
  - unfold update_chat_data. rewrite run_call. cbn. eauto.
  - unfold send_chat_message. rewrite run_bind, Hr. unfold and_then.
    cbn [res final events]. destruct r as [user|e]; [|cbn [res]; intros [= ->]; by destruct Hcu].
    rewrite run_call. cbn [res events]. intros He.
    eexists. by rewrite store_calls_app, Hs.
  - unfold mark_chat_as_read. rewrite run_call. cbn. eauto.
  - unfold delete_chat_endpoint. rewrite run_bind, Hr. unfold and_then.
    cbn [res final events]. destruct r as [user|e]; [|cbn [res]; intros [= ->]; by destruct Hcu].
    destruct (match user with
              | Some u => negb (eq_str (role u) "admin")
              | None => true
              end).
    + rewrite run_raise_http. by cbn [res].
    + rewrite run_call. cbn [res events]. intros He.
      eexists. by rewrite store_calls_app, Hs.
  - unfold update_message_endpoint.
    destruct (negb (truthy (get data "text"))).
    + rewrite run_raise_http. by cbn [res].
    + rewrite run_call. cbn. eauto.
  - unfold delete_message_endpoint. rewrite run_call. cbn. eauto.
Qed.

(** X13. [update_message_endpoint] reads only the key ["text"] of the
    patch: two patches with the same text have the same outcome, whatever
    else they carry. *)
Theorem update_message_ignores_other_keys (message_id : Z)
    (data data' : dict) (authorization authorization' : option string)
    (db : DB) :
  get data "text" = get data' "text" →
  exec (dispatch int_of_str (PATCH_message message_id data) authorization) db =
  exec (dispatch int_of_str (PATCH_message message_id data') authorization') db.
Proof.
  intros Ht. unfold dispatch, update_message_endpoint. by rewrite Ht.
Qed.

(** X14. A handler that does not take the credential never has a token
    decoded; one that takes it has decoded what [get_current_user] has
    decoded, which is at most one token. *)
Theorem handlers_decode_at_most_once (req : request)
    (authorization : option string) (db : DB) :
  decoded_tokens (events (exec (dispatch int_of_str req authorization) db)) =
    (if takes_credential req
     then decoded_tokens (events (exec (current_user authorization) db))
     else [])
  ∧ length (decoded_tokens
              (events (exec (dispatch int_of_str req authorization) db))) ≤ 1.
Proof.
  assert (decoded_tokens
            (events (exec (dispatch int_of_str req authorization) db)) =
          if takes_credential req
          then decoded_tokens (events (exec (current_user authorization) db))
          else []) as Heq.
  { destruct (current_user_outcome authorization db)
      as (r & evs & Hr & _ & _ & _).
    destruct req; unfold dispatch; cbn [takes_credential].
    - unfold list_chats. rewrite run_bind, Hr. unfold and_then.
      cbn [res final events]. destruct r as [user|e]; [|done].
      rewrite run_call. cbn [events].
      rewrite decoded_tokens_app. cbn. by rewrite app_nil_r.
    - unfold get_chat. by rewrite run_call.
    - unfold create_new_chat. by rewrite run_call.
    - unfold update_chat_data. by rewrite run_call.
    - unfold send_chat_message. rewrite run_bind, Hr. unfold and_then.
      cbn [res final events]. destruct r as [user|e]; [|done].
      rewrite run_call. cbn [events].
      rewrite decoded_tokens_app. cbn. by rewrite app_nil_r.
    - unfold mark_chat_as_read. by rewrite run_call.
    - unfold delete_chat_endpoint. rewrite run_bind, Hr. unfold and_then.
      cbn [res final events]. destruct r as [user|e]; [|done].
      destruct (match user with
                | Some u => negb (eq_str (role u) "admin")
                | None => true
                end).
      + rewrite run_raise_http. cbn [events]. by rewrite app_nil_r.
      + rewrite run_call. cbn [events].
        rewrite decoded_tokens_app. cbn. by rewrite app_nil_r.
    - unfold update_message_endpoint.
      destruct (negb (truthy (get data "text"))).
      + by rewrite run_raise_http.
      + by rewrite run_call.
    - unfold delete_message_endpoint. by rewrite run_call. }
  split; [done|]. rewrite Heq.
  destruct (takes_credential req); [|simpl; lia].
  by destruct (current_user_outcome authorization db)
    as (r & evs & -> & _ & _ & Hl).
Qed.

End Extras.

(** X10. [create_new_chat] and [update_chat_data] take no credential:
    whatever the header and whatever the decoder would make of it, each
    makes its one controller call with the body as received and returns
    what the controller returns. *)
Theorem chat_writes_ignore_credential {ChatCreate ChatUpdate response DB : Type}
    (int_of_str : string → option Z)
    (decode1 decode2 : string → option dict)
    (controller : @controller_call ChatCreate ChatUpdate → DB →
                  result response * DB)
    (new : ChatCreate) (chat_id : Z) (patch : ChatUpdate)
    (authorization1 authorization2 : option string) (db : DB) :
  (run decode1 controller (dispatch int_of_str (POST_chat new) authorization1) db
   = {| res := (controller (create_chat new) db).1;
        final := (controller (create_chat new) db).2;
        events := [called (create_chat new)] |}
   ∧ run decode2 controller
       (dispatch int_of_str (POST_chat new) authorization2) db
     = run decode1 controller
         (dispatch int_of_str (POST_chat new) authorization1) db)
  ∧ (run decode1 controller
       (dispatch int_of_str (PATCH_chat chat_id patch) authorization1) db
     = {| res := (controller (update_chat chat_id patch) db).1;
          final := (controller (update_chat chat_id patch) db).2;
          events := [called (update_chat chat_id patch)] |}
     ∧ run decode2 controller
         (dispatch int_of_str (PATCH_chat chat_id patch) authorization2) db
       = run decode1 controller
           (dispatch int_of_str (PATCH_chat chat_id patch) authorization1) db).
Proof.
  unfold dispatch, create_new_chat, update_chat_data.
  by rewrite !run_call.
Qed.

(** ** The further properties on the concrete deployment *)

Lemma get_current_user_exceptions_witness :
  (∃ header token payload,
     Some "Bearer no-sub-token"%string = Some header
     ∧ between_spaces header = Some token
     ∧ Demo.decode_access_token token = Some payload
     ∧ int Demo.int_of_str (get payload "sub") = Raised TypeError)
  ∧ (TypeError = TypeError ∨ TypeError = ValueError
     ∨ TypeError = OverflowError).
Proof.
  apply (get_current_user_exceptions Demo.int_of_str Demo.decode_access_token
           Demo.controller (Some "Bearer no-sub-token"%string) Demo.db).
  vm_compute. reflexivity.
Defined.

Lemma get_current_user_identity_witness :
  Demo.exec (get_current_user Demo.int_of_str (Some "Bearer agent-token")) =
  {| res := Returned
              (Some {| id := 7;
                       role := get {[ "sub" := PyStr "7";
                                      "role" := PyStr "agent" ]} "role" |});
     final := Demo.db; events := [decoded "agent-token"] |}.
Proof.
  apply (get_current_user_identity Demo.int_of_str Demo.decode_access_token
           Demo.controller "Bearer agent-token" "agent-token"
           {[ "sub" := PyStr "7"; "role" := PyStr "agent" ]} 7 Demo.db).
  - reflexivity.
  - reflexivity.
  - reflexivity.
  - apply (bool_decide_eq_false_1 _). vm_compute. reflexivity.
  - vm_compute. reflexivity.
Defined.

Lemma get_current_user_falsy_payload_witness :
  Demo.exec (get_current_user Demo.int_of_str (Some "Bearer forged")) =
  {| res := Returned None; final := Demo.db; events := [decoded "forged"] |}.
Proof.
  apply (get_current_user_falsy_payload Demo.int_of_str
           Demo.decode_access_token Demo.controller
           "Bearer forged" "forged" Demo.db).
  - reflexivity.
  - reflexivity.
  - left. reflexivity.
Defined.

Lemma get_current_user_ignores_later_segments_witness :
  Demo.exec (get_current_user Demo.int_of_str
               (Some "Bearer agent-token and more words")) =
  Demo.exec (get_current_user Demo.int_of_str (Some "Bearer agent-token")).
Proof.
  apply (get_current_user_ignores_later_segments Demo.int_of_str
           Demo.decode_access_token Demo.controller
           "agent-token" "and more words" Demo.db).
  reflexivity.
Defined.

Lemma delete_chat_admin_reaches_store_witness :
  Demo.exec (dispatch Demo.int_of_str (DELETE_chat 2)
               (Some "Bearer admin-token")) =
  {| res := (Demo.controller (delete_chat 2) Demo.db).1;
     final := (Demo.controller (delete_chat 2) Demo.db).2;
     events := events (Demo.exec (get_current_user Demo.int_of_str
                                    (Some "Bearer admin-token")))
               ++ [called (delete_chat 2)] |}.
Proof.
  apply (delete_chat_admin_reaches_store Demo.int_of_str
           Demo.decode_access_token Demo.controller 2
           (Some "Bearer admin-token"%string) Demo.db Cases.admin_1).
  - vm_compute. reflexivity.
  - reflexivity.
Defined.

Lemma credential_failure_propagates_witness :
  let o := Demo.exec (dispatch Demo.int_of_str
                        (POST_message Cases.from_customer)
                        (Some "Bearer no-sub-token")) in
  res o = Raised TypeError
  ∧ final o = Demo.db
  ∧ reaches_store (events o) = false.
Proof.
  apply (credential_failure_propagates Demo.int_of_str
           Demo.decode_access_token Demo.controller
           (POST_message Cases.from_customer)
           (Some "Bearer no-sub-token"%string) Demo.db TypeError).
  - reflexivity.
  - vm_compute. reflexivity.
Defined.

Lemma list_chats_forwards_identity_witness :
  Demo.exec (dispatch Demo.int_of_str GET_chats
               (Some "Bearer customer-token")) =
  {| res := (Demo.controller
               (get_all_chats (Some 42%Z) (PyStr "customer")) Demo.db).1;
     final := (Demo.controller
                 (get_all_chats (Some 42%Z) (PyStr "customer")) Demo.db).2;
     events := events (Demo.exec (get_current_user Demo.int_of_str
                                    (Some "Bearer customer-token")))
               ++ [called (get_all_chats (Some 42%Z) (PyStr "customer"))] |}.
Proof.
  apply (list_chats_forwards_identity Demo.int_of_str
           Demo.decode_access_token Demo.controller
           (Some "Bearer customer-token"%string) Demo.db
           (Some Demo.customer_42)).
  vm_compute. reflexivity.
Defined.

Lemma handlers_never_raise_http_witness :
  ∃ c, store_calls
         (events (Demo.exec (dispatch Demo.int_of_str (GET_chat 9) None)))
       = [c]
       ∧ (Demo.controller c Demo.db).1
         = Raised (HTTPException 404 "Not found").
Proof.
  apply (handlers_never_raise_http Demo.int_of_str Demo.decode_access_token
           Demo.controller (GET_chat 9) None Demo.db 404 "Not found").
  reflexivity.
Defined.

Lemma update_message_ignores_other_keys_witness :
  Demo.exec (dispatch Demo.int_of_str
               (PATCH_message 3 Cases.patch_plain) None) =
  Demo.exec (dispatch Demo.int_of_str
               (PATCH_message 3 Cases.patch_noisy)
               (Some "Bearer agent-token")).
Proof.
  apply (update_message_ignores_other_keys Demo.int_of_str
           Demo.decode_access_token Demo.controller 3
           Cases.patch_plain Cases.patch_noisy None
           (Some "Bearer agent-token"%string) Demo.db).
  vm_compute. reflexivity.
Defined.
